(** * Feature interpretation with the GapEncoder: the example script

    A shallow embedding of [examples/02_investigating_dirty_categories.py]
    and of the library operations it calls, followed by the properties of
    the script.

    - [Pandas]: the table operations of the preprocessing step
      (item access and assignment, [fillna], [drop], row slicing,
      [to_numpy().flatten()]);
    - [Encoder]: the encoder capability ([fit_transform], [transform],
      [get_feature_names_out]);
    - [Script]: the script itself, statement by statement, in an error
      monad that records every call made to a collaborator. *)

From Stdlib Require Import List String Ascii ZArith Arith Bool Lia.
From Stdlib Require Import DecimalString.
Import ListNotations.
Open Scope string_scope.
Open Scope list_scope.
Open Scope nat_scope.

(** ** Exceptions and results *)

(** The exceptions that reach the script.  [KeyError] is raised by the
    table operations, [NotFittedError] by an encoder used before [fit];
    [ExternalError] stands for whatever a collaborator outside this
    development raises (the dataset provider, the rendering surface). *)
Inductive exn : Type :=
| KeyError (key : string)
| NotFittedError
| ExternalError (msg : string).

Definition result (A : Type) : Type := (exn + A)%type.

Definition ok {A} (a : A) : result A := inr a.
Definition raise {A} (e : exn) : result A := inl e.

Definition rbind {A B} (r : result A) (k : A -> result B) : result B :=
  match r with
  | inl e => inl e
  | inr a => k a
  end.

Declare Scope result_scope.
Delimit Scope result_scope with result.
Notation "x <- r ;; k" := (rbind r (fun x => k))
  (at level 61, r at next level, right associativity) : result_scope.

(** ** The table operations *)

Module Pandas.

(** A cell of a string column; [None] is the missing value (NaN). *)
Definition cell : Type := option string.

(** A column.  All columns of one table share the table's row index, so
    a row is a position. *)
Definition Series : Type := list cell.

(** A table: its number of rows (the length of the index) and its named
    columns, in column order. *)
Record DataFrame : Type := mkDataFrame {
  nrows : nat;
  columns : list (string * Series)
}.

Definition column_names (X : DataFrame) : list string :=
  map fst (columns X).

Fixpoint distinct (l : list string) : bool :=
  match l with
  | [] => true
  | k :: l' => negb (existsb (String.eqb k) l') && distinct l'
  end.

(** Well-formed tables: column labels are unique and every column has
    one cell per row. *)
Definition wf (X : DataFrame) : bool :=
  distinct (column_names X)
  && forallb (fun c => Nat.eqb (List.length (snd c)) (nrows X)) (columns X).

Fixpoint lookup (k : string) (cols : list (string * Series)) : option Series :=
  match cols with
  | [] => None
  | (k', s) :: cols' => if String.eqb k k' then Some s else lookup k cols'
  end.

(** [X[k]]: the column labelled [k]; [KeyError] when there is none.
    This is item access on a table whose column labels are distinct
    ([wf]); with a repeated label the library returns a table, not a
    column, and the facts below do not speak of such tables. *)
Definition getitem (X : DataFrame) (k : string) : result Series :=
  match lookup k (columns X) with
  | Some s => ok s
  | None => raise (KeyError k)
  end.

(** The cell of row [i]; rows outside the column are missing. *)
Definition at_row (s : Series) (i : nat) : cell := nth i s None.

(** [s.fillna(other)]: the cells of [s], a missing one replaced by the
    cell of [other] in the same row.  Rows of [s] that [other] does not
    have stay missing. *)
Fixpoint fillna (s other : Series) : Series :=
  match s with
  | [] => []
  | c :: s' =>
      match c with
      | Some v => Some v
      | None => hd None other
      end :: fillna s' (tl other)
  end.

(** A column value is aligned to the index of the table it is stored
    in: rows it lacks become missing, rows beyond the index are lost. *)
Definition align (n : nat) (s : Series) : Series :=
  firstn n s ++ repeat None (n - List.length s).

Fixpoint replace (k : string) (s : Series) (cols : list (string * Series))
  : list (string * Series) :=
  match cols with
  | [] => []
  | (k', s') :: cols' =>
      if String.eqb k k' then (k', s) :: cols'
      else (k', s') :: replace k s cols'
  end.

(** [X[k] = s]: overwrites column [k] where it stands, or adds it as
    the last column. *)
Definition setitem (X : DataFrame) (k : string) (s : Series) : DataFrame :=
  let s' := align (nrows X) s in
  match lookup k (columns X) with
  | Some _ => mkDataFrame (nrows X) (replace k s' (columns X))
  | None => mkDataFrame (nrows X) (columns X ++ [(k, s')])
  end.

Definition has_column (X : DataFrame) (k : string) : bool :=
  existsb (String.eqb k) (column_names X).

(** [X.drop(labels=labels, axis="columns")]: removes the listed
    columns; [KeyError] when a label is not a column. *)
Definition drop (X : DataFrame) (labels : list string) : result DataFrame :=
  match find (fun k => negb (has_column X k)) labels with
  | Some k => raise (KeyError k)
  | None =>
      ok (mkDataFrame (nrows X)
            (filter (fun c => negb (existsb (String.eqb (fst c)) labels))
                    (columns X)))
  end.

(** [X[labels]] with a list of labels: the sub-table of these columns,
    in the order asked for. *)
Fixpoint select (X : DataFrame) (labels : list string)
  : result (list (string * Series)) :=
  match labels with
  | [] => ok []
  | k :: labels' =>
      (s <- getitem X k ;;
       cols <- select X labels' ;;
       ok ((k, s) :: cols))%result
  end.

Definition getitems (X : DataFrame) (labels : list string) : result DataFrame :=
  (cols <- select X labels ;; ok (mkDataFrame (nrows X) cols))%result.

(** [X[:n]]: the first [n] rows, fewer when the table is shorter. *)
Definition head_rows (X : DataFrame) (n : nat) : DataFrame :=
  mkDataFrame (Nat.min n (nrows X))
              (map (fun c => (fst c, firstn n (snd c))) (columns X)).

Definition row (X : DataFrame) (i : nat) : list cell :=
  map (fun c => at_row (snd c) i) (columns X).

(** [X.to_numpy()]: the cells as a list of rows. *)
Definition to_numpy (X : DataFrame) : list (list cell) :=
  map (row X) (seq 0 (nrows X)).

(** [a.flatten()]: the rows one after the other. *)
Definition flatten (a : list (list cell)) : list cell := List.concat a.

End Pandas.

(** ** The encoder capability

    [skrub.GapEncoder] is imported by the script; its implementation is
    not part of the sources at hand.  The definitions of this module
    follow the description of the capability: an encoder configured with
    a number of latent topics and a random seed, fitted once on a dirty
    column, which then maps each observation to one activation per topic
    and summarises each topic by its most representative labels. *)

Module Encoder.
Import Pandas.

(** Modelled from the spec: the numerical core of [GapEncoder] (the
    factorization that learns the latent topics, the activation of a
    topic on an observation and the ranking of labels by
    representativeness), whose implementation is missing.  It is an
    interface: how topics are learnt and scored is the encoder's own
    business.  [learn seed data n i] is topic [i] of the [n] topics
    learnt from [data], every stochastic initialization being drawn
    from [seed]; [ranked_label t j] is the label of rank [j] for
    topic [t]. *)
Class Factorization : Type := {
  Topic : Type;
  Score : Type;
  learn : Z -> list (list cell) -> nat -> nat -> Topic;
  activation : Topic -> list cell -> Score;
  ranked_label : Topic -> nat -> string
}.

Section WithFactorization.
Context {F : Factorization}.

(** An encoded matrix: one row per observation, one activation per
    latent topic. *)
Definition Matrix : Type := list (list Score).

(** A label-group: the labels that summarise one topic, best first. *)
Definition LabelGroup : Type := list string.

(** Modelled from the spec: the [GapEncoder] object, missing from the
    sources: its configuration [{n_components, random_state}] and,
    once fitted, its latent topics. *)
Record GapEncoder : Type := mkGapEncoder {
  n_components : nat;
  random_state : Z;
  topics_ : option (list Topic)
}.

(** Modelled from the spec: the constructor of [GapEncoder], missing from
    the sources: [GapEncoder(n_components=n, random_state=seed)], not
    fitted. *)
Definition new (n : nat) (seed : Z) : GapEncoder :=
  mkGapEncoder n seed None.

(** Modelled from the spec: the learning step of [GapEncoder.fit],
    missing from the sources: one topic per component, in topic order,
    learnt from the column under the encoder's configuration. *)
Definition learn_topics (enc : GapEncoder) (X : DataFrame) : list Topic :=
  map (learn (random_state enc) (to_numpy X) (n_components enc))
      (seq 0 (n_components enc)).

(** Modelled from the spec: [GapEncoder.fit], missing from the
    sources.  Learns [n_components] topics from the column, with
    [random_state] as the seed of the initialization; whatever the
    encoder had learnt before is replaced. *)
Definition fit (enc : GapEncoder) (X : DataFrame) : GapEncoder :=
  mkGapEncoder (n_components enc) (random_state enc)
               (Some (learn_topics enc X)).

(** Modelled from the spec: the encoding step of [GapEncoder.transform],
    missing from the sources: the activation of every topic on every
    observation. *)
Definition encode (ts : list Topic) (X : DataFrame) : Matrix :=
  map (fun obs => map (fun t => activation t obs) ts) (to_numpy X).

(** Modelled from the spec: [GapEncoder.transform], missing from the
    sources.  One row per input observation, one column per latent
    topic; an encoder that has not been fitted raises. *)
Definition transform (enc : GapEncoder) (X : DataFrame) : result Matrix :=
  match topics_ enc with
  | None => raise NotFittedError
  | Some ts => ok (encode ts X)
  end.

(** Modelled from the spec: [GapEncoder.fit_transform], missing from
    the sources: fits the encoder on the column, then encodes that
    same column.  The fitted encoder is returned with the matrix. *)
Definition fit_transform (enc : GapEncoder) (X : DataFrame)
  : GapEncoder * Matrix :=
  (fit enc X, encode (learn_topics enc X) X).

(** Modelled from the spec: [GapEncoder.get_feature_names_out]
    (the label summary), missing from the sources: for each topic, in
    topic order, its [n_labels] most representative labels. *)
Definition get_feature_names_out (enc : GapEncoder) (n_labels : nat)
  : result (list LabelGroup) :=
  match topics_ enc with
  | None => raise NotFittedError
  | Some ts => ok (map (fun t => map (ranked_label t) (seq 0 n_labels)) ts)
  end.

(** Shape of a matrix: [rows m] by [cols]. *)
Definition has_shape (m : Matrix) (rows cols : nat) : Prop :=
  List.length m = rows /\ Forall (fun r => List.length r = cols) m.

End WithFactorization.

Arguments GapEncoder : clear implicits.
Arguments Matrix : clear implicits.

End Encoder.

(** ** The script *)

Module Script.
Import Pandas Encoder.

(** What [fetch_employee_salaries()] returns. *)
Record Dataset : Type := mkDataset {
  ds_X : DataFrame;
  ds_y : Series;  (* the target, carried along and never read *)
  description : string
}.

Section WithFactorization.
Context {F : Factorization}.

(** The calls of [matplotlib.pyplot] made by the script, with their
    arguments. *)
Inductive plot_call : Type :=
| figure (width height : nat)
| imshow (image : Matrix F)
| xlabel (text : string) (size : nat)
| xticks (ticks : list nat) (labels : list LabelGroup)
         (rotation : nat) (ha : string)
| ylabel (text : string) (size : nat)
| yticks (ticks : list nat) (labels : list cell)
| colorbar
| set_label (label : string) (size : nat)
| tight_layout
| show.

(** The calls the script makes to its collaborators; [Transform] is
    recorded with the table it is given. *)
Inductive call : Type :=
| Fetch
| Preprocess
| Project
| FitTransform
| FeatureNames (n_labels : nat)
| Print (line : string)
| Transform (sample : DataFrame)
| Plot (p : plot_call).

(** A call and how it ended: [None] when it returned, [Some e] when
    it raised [e]. *)
Definition event : Type := (call * option exn)%type.

(** What is outside the script: the dataset provider, the rendering
    surface (whose answer may depend on everything done so far), the
    conversion of a label-group to text by the f-string, and the columns
    the encoder refuses to be fitted on: [fit_error X] is [Some e] when
    fitting on [X] raises [e]; which columns those are is the encoder's
    own business. *)
Record Env : Type := mkEnv {
  fetch_employee_salaries : result Dataset;
  plt : list event -> plot_call -> option exn;
  str_labels : LabelGroup -> string;
  fit_error : DataFrame -> option exn
}.

(** What the script has done so far: the lines printed and the calls
    made, oldest first. *)
Record World : Type := mkWorld {
  stdout : list string;
  trace : list event
}.

Definition empty_world : World := mkWorld [] [].

(** Script computations: they may raise, and act on the world. *)
Definition M (A : Type) : Type := World -> result A * World.

Definition ret {A} (a : A) : M A := fun w => (ok a, w).

Definition bind {A B} (m : M A) (k : A -> M B) : M B :=
  fun w =>
    match m w with
    | (inl e, w') => (inl e, w')
    | (inr a, w') => k a w'
    end.

Definition outcome {A} (r : result A) : option exn :=
  match r with
  | inl e => Some e
  | inr _ => None
  end.

Definition record (c : call) (o : option exn) (w : World) : World :=
  mkWorld (stdout w) (trace w ++ [(c, o)]).

(** A call to a collaborator whose result is [r]. *)
Definition step {A} (c : call) (r : result A) : M A :=
  fun w => (r, record c (outcome r) w).

(** [print(line)]. *)
Definition print (line : string) : M unit :=
  fun w => (ok tt, mkWorld (stdout w ++ [line])
                           (trace w ++ [(Print line, None)])).

(** A call to the rendering surface. *)
Definition plot (env : Env) (p : plot_call) : M unit :=
  fun w =>
    let o := plt env (trace w) p in
    (match o with
     | Some e => raise e
     | None => ok tt
     end, record (Plot p) o w).

(** [enc.fit_transform(X)] as the script meets it: the exception of an
    encoder that refuses the column, or else the fitted encoder and the
    encoded matrix. *)
Definition fit_call (env : Env) (enc : GapEncoder F) (X : DataFrame)
  : result (GapEncoder F * Matrix F) :=
  match fit_error env X with
  | Some e => raise e
  | None => ok (fit_transform enc X)
  end.

End WithFactorization.

Arguments Env : clear implicits.
Arguments World : clear implicits.
Arguments plot_call : clear implicits.
Arguments call : clear implicits.
Arguments event : clear implicits.

Declare Scope script_scope.
Delimit Scope script_scope with script.
Notation "x <- m ;; k" := (bind m (fun x => k))
  (at level 61, m at next level, right associativity) : script_scope.
Notation "m ;; k" := (bind m (fun _ => k))
  (at level 61, right associativity) : script_scope.

Section Program.
Context {F : Factorization}.
Variable env : Env F.

(** [for x in xs: body(x)]. *)
Fixpoint for_each {A} (xs : list A) (body : A -> M unit) : M unit :=
  match xs with
  | [] => ret tt
  | x :: xs' => (body x ;; for_each xs' body)%script
  end.

(** [enumerate(xs)]. *)
Definition enumerate {A} (xs : list A) : list (nat * A) :=
  combine (seq 0 (List.length xs)) xs.

(** [str(k)] for a non-negative integer. *)
Definition str_int (k : nat) : string :=
  NilZero.string_of_uint (Nat.to_uint k).

Definition primary : string := "employee_position_title".
Definition secondary : string := "underfilled_job_title".

(** Lines 40-42: the overlay assignment.  The right-hand side is
    evaluated first, receiver before argument. *)
Definition overlay (X : DataFrame) : result DataFrame :=
  (receiver <- getitem X secondary ;;
   value <- getitem X primary ;;
   ok (setitem X primary (fillna receiver value)))%result.

(** Lines 40-43: the Preprocessor, overlay then drop. *)
Definition preprocessor (X : DataFrame) : result DataFrame :=
  (X' <- overlay X ;; drop X' [secondary])%result.

(** The table the Preprocessor returns: the primary column overwritten
    by the secondary one filled from it, the secondary column removed. *)
Definition merged_table (X : DataFrame) (a b : Series) : DataFrame :=
  mkDataFrame (nrows X)
    (filter (fun c => negb (existsb (String.eqb (fst c)) [secondary]))
            (replace primary (align (nrows X) (fillna b a)) (columns X))).

(** The claim "a present primary value is kept", for one table. *)
Definition keeps_present_primary (X : DataFrame) : Prop :=
  forall X' a out i v,
    preprocessor X = ok X' ->
    getitem X primary = ok a ->
    getitem X' primary = ok out ->
    i < nrows X ->
    at_row a i = Some v ->
    at_row out i = Some v.

(** Line 84: the f-string. *)
Definition topic_line (k : nat) (labels : LabelGroup) : string :=
  ("Topic n°" ++ str_int k ++ ": " ++ str_labels env labels)%string.

(** Lines 82-84: the Topic Reporter. *)
Definition topic_reporter (enc : GapEncoder F) (n_labels : nat)
  : M (list LabelGroup) :=
  (topic_labels <- step (FeatureNames n_labels)
                        (get_feature_names_out enc n_labels) ;;
   for_each (enumerate topic_labels)
            (fun kl => print (topic_line (fst kl) (snd kl))) ;;
   ret topic_labels)%script.

(** Lines 96-104: the image of an encoded matrix, with [T] ticks on
    the horizontal axis and [B] on the vertical one. *)
Definition render (encoded_labels : Matrix F) (X_dirty : DataFrame)
           (topic_labels : list LabelGroup) (B T : nat) : M unit :=
  (plot env (figure 8 10) ;;
   plot env (imshow encoded_labels) ;;
   plot env (xlabel "Latent topics" 12) ;;
   plot env (xticks (seq 0 T) topic_labels 50 "right") ;;
   plot env (ylabel "Data entries" 12) ;;
   plot env (yticks (seq 0 B)
                    (flatten (to_numpy (head_rows X_dirty B)))) ;;
   plot env colorbar ;;
   plot env (set_label "Topic activations" 12) ;;
   plot env tight_layout ;;
   plot env show)%script.

(** Lines 95-104: the Activation Visualizer, for the first [B] rows
    of the dirty column. *)
Definition activation_visualizer (enc : GapEncoder F) (X_dirty : DataFrame)
           (topic_labels : list LabelGroup) (B T : nat) : M unit :=
  (encoded_labels <- step (Transform (head_rows X_dirty B))
                          (transform enc (head_rows X_dirty B)) ;;
   render encoded_labels X_dirty topic_labels B T)%script.

(** The script, top to bottom.  The bare expressions of lines 33, 45,
    51 and 68 compute nothing that is kept.  Line 67 may raise, when the
    encoder refuses the column; it leaves [X_dirty] as it is, tables
    being changed by the overlay and the drop only. *)
Definition main : M unit :=
  (dataset <- step Fetch (fetch_employee_salaries env) ;;
   let X := ds_X dataset in
   X <- step Preprocess (preprocessor X) ;;
   X_dirty <- step Project (getitems X [primary]) ;;
   let enc := new 10 42%Z in
   fitted <- step FitTransform (fit_call env enc X_dirty) ;;
   let enc := fst fitted in
   topic_labels <- topic_reporter enc 3 ;;
   activation_visualizer enc X_dirty topic_labels 20 10)%script.

(** *** Reading a run *)

(** The calls of the Activation Visualizer to the rendering surface,
    in the order of lines 96-104. *)
Definition visualizer_plots (encoded_labels : Matrix F)
           (X_dirty : DataFrame) (topic_labels : list LabelGroup)
           (B T : nat) : list (plot_call F) :=
  [ figure 8 10;
    imshow encoded_labels;
    xlabel "Latent topics" 12;
    xticks (seq 0 T) topic_labels 50 "right";
    ylabel "Data entries" 12;
    yticks (seq 0 B) (flatten (to_numpy (head_rows X_dirty B)));
    colorbar;
    set_label "Topic activations" 12;
    tight_layout;
    show ].

(** What the calls of [render] look like: the ticks and labels of
    the two axes are those given here, and nothing is printed. *)
Definition render_call (X_dirty : DataFrame)
           (topic_labels : list LabelGroup) (B T : nat) (c : call F)
  : Prop :=
  match c with
  | Plot (xticks ticks labels _ _) =>
      ticks = seq 0 T /\ labels = topic_labels
  | Plot (yticks ticks labels) =>
      ticks = seq 0 B /\ labels = flatten (to_numpy (head_rows X_dirty B))
  | Plot _ => True
  | _ => False
  end.

(** A call that returned. *)
Definition returned (ev : event F) : Prop := snd ev = None.

(** A run in which no failure is handled: a result [r] after the
    calls [tr] is either normal, every call having returned, or the
    exception raised by the last call, every earlier one having
    returned. *)
Definition unhandled {A} (r : result A) (tr : list (event F)) : Prop :=
  match r with
  | inl e => exists pre c, tr = pre ++ [(c, Some e)] /\ Forall returned pre
  | inr _ => Forall returned tr
  end.

(** A computation that hands every failure on. *)
Definition propagating {A} (m : M A) : Prop :=
  forall w, Forall returned (trace w) ->
            unhandled (fst (m w)) (trace (snd (m w))).

(** [w'] comes from [w] by calls that all satisfy [P], none of them
    printing. *)
Definition extends_by (P : call F -> Prop) (w w' : World F) : Prop :=
  stdout w' = stdout w /\
  exists evs, trace w' = trace w ++ evs /\
              Forall (fun ev => P (fst ev)) evs.

Definition emits (P : call F -> Prop) {A} (m : M A) : Prop :=
  forall w, extends_by P w (snd (m w)).

(** The world when the Activation Visualizer starts. *)
Definition reported (groups : list LabelGroup) : World F :=
  mkWorld
    (map (fun i => topic_line i (nth i groups []))
         (seq 0 (List.length groups)))
    ([(Fetch, None); (Preprocess, None); (Project, None);
      (FitTransform, None); (FeatureNames 3, None)]
     ++ map (fun i => (Print (topic_line i (nth i groups [])), None))
            (seq 0 (List.length groups))).

(** The claim "the vertical axis has one tick per row of the bounded
    sample", for one run. *)
Definition one_tick_per_sampled_row (X_dirty : DataFrame) (B : nat)
           (w : World F) : Prop :=
  forall ticks labels o,
    In (Plot (yticks ticks labels), o) (trace w) ->
    List.length ticks = Nat.min B (nrows X_dirty).

(** *** The run of a table with both title columns *)

(** Line 50 after lines 40-43: the dirty column of a table whose title
    columns are [a] (primary) and [b] (secondary). *)
Definition dirty_column (X : DataFrame) (a b : Series) : DataFrame :=
  mkDataFrame (nrows X) [(primary, align (nrows X) (fillna b a))].

(** A table without its secondary column, nothing else changed. *)
Definition without_secondary (X : DataFrame) : DataFrame :=
  mkDataFrame (nrows X)
    (filter (fun c => negb (String.eqb (fst c) secondary)) (columns X)).




(** The calls of [render] with all their data: the image shown, the
    ticks and the labels of both axes. *)
Definition render_args (encoded_labels : Matrix F) (X_dirty : DataFrame)
           (topic_labels : list LabelGroup) (B T : nat) (c : call F)
  : Prop :=
  match c with
  | Plot (imshow image) => image = encoded_labels
  | Plot (xticks ticks labels _ _) =>
      ticks = seq 0 T /\ labels = topic_labels
  | Plot (yticks ticks labels) =>
      ticks = seq 0 B /\ labels = flatten (to_numpy (head_rows X_dirty B))
  | Plot _ => True
  | _ => False
  end.

(** The calls of the script that can raise: the dataset provider, the
    Preprocessor, the fitting of the encoder and the rendering surface. *)
Definition may_raise (c : call F) : Prop :=
  match c with
  | Fetch | Preprocess | FitTransform | Plot _ => True
  | _ => False
  end.


End Program.

End Script.

(** ** Sample data *)

Module Samples.
Import Pandas Encoder Script.

(** A factorization that can be run: topic [i] scores an observation by
    [i] plus the number of its present cells, and names its labels by
    topic and rank. *)
Definition counting : Factorization := {|
  Topic := nat;
  Score := nat;
  learn := fun _ _ _ i => i;
  activation := fun t obs =>
    t + List.length (filter (fun c : cell => match c with
                                             | Some _ => true
                                             | None => false
                                             end) obs);
  ranked_label := fun t j => (str_int t ++ "/" ++ str_int j)%string
|}.

(** The two-row table of the overlay scenario. *)
Definition scenario_table : DataFrame :=
  mkDataFrame 2
    [ ("employee_position_title", [Some "Manager"; None]);
      ("underfilled_job_title", [Some "Sr. Manager"; Some "Firefighter"]) ].

(** A table with a column the overlay does not concern and every
    combination of present and missing titles. *)
Definition staff_table : DataFrame :=
  mkDataFrame 4
    [ ("department", [Some "POL"; Some "FRS"; Some "HHS"; None]);
      ("employee_position_title",
       [Some "Police Officer III"; None; Some "Manager II"; None]);
      ("underfilled_job_title",
       [None; Some "Firefighter/Rescuer I"; Some "Manager I"; None]);
      ("gender", [Some "F"; Some "M"; None; Some "F"]) ].

(** A dirty column of fifteen rows. *)
Definition fifteen_titles : Series :=
  map (fun i => Some ("Title " ++ str_int i)%string) (seq 0 15).

Definition fifteen_rows : DataFrame :=
  mkDataFrame 15 [("employee_position_title", fifteen_titles)].

Definition fifteen_table : DataFrame :=
  mkDataFrame 15
    [ ("employee_position_title", fifteen_titles);
      ("underfilled_job_title", repeat None 15) ].

(** A new encoder. *)
Definition fresh : GapEncoder counting := new 10 42.

(** The label-groups of ten topics of [counting], three labels each. *)
Definition counting_labels : list LabelGroup :=
  map (fun t => map (fun j => (str_int t ++ "/" ++ str_int j)%string)
                    (seq 0 3))
      (seq 0 10).

Definition join_labels (g : LabelGroup) : string := String.concat ", " g.

(** A world in which every collaborator answers. *)
Definition quiet (X : DataFrame) : Env counting :=
  mkEnv (ok (mkDataset X [] "Employee salaries")) (fun _ _ => None)
        join_labels (fun _ => None).

(** A world without the dataset. *)
Definition offline : Env counting :=
  mkEnv (raise (ExternalError "URLError")) (fun _ _ => None) join_labels
        (fun _ => None).

(** A rendering surface that refuses a list of ticks and a list of
    labels of different lengths. *)
Definition strict_plt (_ : list (event counting)) (p : plot_call counting)
  : option exn :=
  match p with
  | xticks ticks labels _ _ =>
      if Nat.eqb (List.length ticks) (List.length labels) then None
      else Some (ExternalError "ValueError")
  | yticks ticks labels =>
      if Nat.eqb (List.length ticks) (List.length labels) then None
      else Some (ExternalError "ValueError")
  | _ => None
  end.

Definition strict (X : DataFrame) : Env counting :=
  mkEnv (ok (mkDataset X [] "Employee salaries")) strict_plt join_labels
        (fun _ => None).

(** A world whose encoder refuses a column of fewer rows than it has
    topics to learn. *)
Definition picky (X : DataFrame) : Env counting :=
  mkEnv (ok (mkDataset X [] "Employee salaries")) (fun _ _ => None)
        join_labels
        (fun X_dirty => if Nat.ltb (nrows X_dirty) 10
                        then Some (ExternalError "ValueError")
                        else None).

End Samples.

Import Pandas Encoder Script.

(** * Properties *)

(** ** Facts about the table operations *)

Section PandasFacts.

Lemma lookup_replace_same k s cols s0 :
  lookup k cols = Some s0 -> lookup k (replace k s cols) = Some s.
Proof.
  induction cols as [|[k' s'] cols IH]; simpl; [discriminate|].
  destruct (String.eqb k k') eqn:E; simpl; rewrite E; auto.
Qed.

Lemma lookup_replace_other k k' s cols :
  k' <> k -> lookup k' (replace k s cols) = lookup k' cols.
Proof.
  intros Hne. induction cols as [|[k0 s0] cols IH]; simpl; [reflexivity|].
  destruct (String.eqb k k0) eqn:E; simpl.
  - apply String.eqb_eq in E. subst k0.
    destruct (String.eqb k' k) eqn:E'; [|reflexivity].
    apply String.eqb_eq in E'. contradiction.
  - rewrite IH. reflexivity.
Qed.

Lemma names_replace k s cols :
  map fst (replace k s cols) = map fst cols.
Proof.
  induction cols as [|[k' s'] cols IH]; simpl; [reflexivity|].
  destruct (String.eqb k k'); simpl; [reflexivity|]. now rewrite IH.
Qed.

Lemma lookup_some_has k cols s :
  lookup k cols = Some s -> existsb (String.eqb k) (map fst cols) = true.
Proof.
  induction cols as [|[k' s'] cols IH]; simpl; [discriminate|].
  destruct (String.eqb k k'); simpl; auto.
Qed.

Lemma lookup_filter labels k cols :
  lookup k (filter (fun c => negb (existsb (String.eqb (fst c)) labels)) cols)
  = if existsb (String.eqb k) labels then None else lookup k cols.
Proof.
  induction cols as [|[k' s'] cols IH]; simpl.
  - now destruct (existsb _ labels).
  - destruct (existsb (String.eqb k') labels) eqn:Ek'; simpl.
    + rewrite IH. destruct (String.eqb k k') eqn:E; [|reflexivity].
      apply String.eqb_eq in E. subst k'. now rewrite Ek'.
    + rewrite IH. destruct (String.eqb k k') eqn:E; [|reflexivity].
      apply String.eqb_eq in E. subst k'. now rewrite Ek'.
Qed.

Lemma at_row_align n s i : i < n -> at_row (align n s) i = at_row s i.
Proof.
  intros Hi. unfold at_row, align.
  destruct (Nat.lt_ge_cases i (List.length s)) as [Hlt|Hge].
  - rewrite app_nth1 by (rewrite length_firstn; lia).
    rewrite nth_firstn.
    destruct (Nat.ltb_spec i n); [reflexivity|lia].
  - rewrite (nth_overflow s) by lia.
    rewrite app_nth2 by (rewrite length_firstn; lia).
    apply nth_repeat.
Qed.

Lemma length_fillna s o : List.length (fillna s o) = List.length s.
Proof.
  revert o. induction s as [|c s IH]; intros o; simpl; [reflexivity|].
  now rewrite IH.
Qed.

Lemma at_row_fillna s o i :
  i < List.length s ->
  at_row (fillna s o) i =
  match at_row s i with
  | Some v => Some v
  | None => at_row o i
  end.
Proof.
  unfold at_row. revert o i.
  induction s as [|c s IH]; intros o i Hi; simpl in Hi; [lia|].
  destruct i as [|i]; simpl.
  - destruct c; [reflexivity|]. now destruct o.
  - rewrite IH by lia. destruct (nth i s None); [reflexivity|].
    destruct o; simpl; [now destruct i|reflexivity].
Qed.

Lemma wf_column_length X k s :
  wf X = true -> lookup k (columns X) = Some s -> List.length s = nrows X.
Proof.
  unfold wf. intros H. apply andb_true_iff in H as [_ H].
  rewrite forallb_forall in H.
  induction (columns X) as [|[k' s'] cols IH]; simpl; [discriminate|].
  intros Hl. destruct (String.eqb k k').
  - injection Hl as <-. apply Nat.eqb_eq, (H (k', s')). now left.
  - apply IH; [|exact Hl]. intros c Hc. apply H. now right.
Qed.

End PandasFacts.

(** ** The Preprocessor *)

Section PreprocessorFacts.

Lemma getitem_ok X k s : getitem X k = ok s <-> lookup k (columns X) = Some s.
Proof.
  unfold getitem, ok, raise. destruct (lookup k (columns X)); split;
    intros H; try discriminate; now injection H as ->.
Qed.

Lemma preprocessor_ok X a b :
  getitem X primary = ok a ->
  getitem X secondary = ok b ->
  preprocessor X = ok (merged_table X a b).
Proof.
  intros Ha Hb. apply getitem_ok in Ha. pose proof Hb as Hb'.
  apply getitem_ok in Hb'.
  unfold preprocessor, overlay. rewrite Hb.
  unfold getitem at 1. rewrite Ha.
  cbv beta iota delta [rbind ok raise].
  unfold setitem. rewrite Ha.
  unfold drop, has_column, column_names.
  cbn [find nrows columns].
  rewrite names_replace, (lookup_some_has _ _ _ Hb').
  reflexivity.
Qed.

(** The Preprocessor returns only when both title columns are there. *)
Lemma preprocessor_inv X X' :
  preprocessor X = ok X' ->
  exists a b,
    getitem X primary = ok a /\ getitem X secondary = ok b /\
    X' = merged_table X a b.
Proof.
  intros H.
  destruct (getitem X secondary) as [e|b] eqn:Hb.
  { unfold preprocessor, overlay in H. rewrite Hb in H. discriminate H. }
  destruct (getitem X primary) as [e|a] eqn:Ha.
  { unfold preprocessor, overlay in H. rewrite Hb, Ha in H. discriminate H. }
  exists a, b. repeat split.
  rewrite (preprocessor_ok X a b Ha Hb) in H. now injection H.
Qed.

Lemma merged_table_primary X a b :
  getitem X primary = ok a ->
  getitem (merged_table X a b) primary = ok (align (nrows X) (fillna b a)).
Proof.
  intros Ha. apply getitem_ok in Ha. apply getitem_ok.
  unfold merged_table. cbn [columns].
  rewrite (lookup_filter [secondary]).
  change (existsb (String.eqb primary) [secondary]) with false.
  cbv iota. now apply lookup_replace_same with a.
Qed.

Lemma preprocessor_merged X a b :
  getitem X primary = ok a ->
  getitem X secondary = ok b ->
  exists X',
    preprocessor X = ok X' /\
    nrows X' = nrows X /\
    getitem X' primary = ok (align (nrows X) (fillna b a)).
Proof.
  intros Ha Hb. exists (merged_table X a b).
  split; [now apply preprocessor_ok|]. split; [reflexivity|].
  now apply merged_table_primary.
Qed.

Lemma names_filter (p : string -> bool) (cols : list (string * Series)) :
  map fst (filter (fun c => p (fst c)) cols) = filter p (map fst cols).
Proof.
  induction cols as [|[k s] cols IH]; simpl; [reflexivity|].
  destruct (p k); simpl; now rewrite IH.
Qed.

Lemma merged_row X a b i :
  wf X = true ->
  getitem X primary = ok a ->
  getitem X secondary = ok b ->
  i < nrows X ->
  at_row (align (nrows X) (fillna b a)) i =
  match at_row b i with
  | Some v => Some v
  | None => at_row a i
  end.
Proof.
  intros Hwf Ha Hb Hi. apply getitem_ok in Hb.
  rewrite at_row_align by exact Hi.
  apply at_row_fillna. now rewrite (wf_column_length X secondary b).
Qed.

End PreprocessorFacts.

(** C1, as stated, fails on the table of the overlay scenario: row 0 has
    the primary value "Manager" and the secondary value "Sr. Manager", and
    the merged column holds "Sr. Manager". *)
Lemma primary_overwritten_in_scenario :
  ~ keeps_present_primary Samples.scenario_table.
Proof.
  intros H.
  specialize (H (mkDataFrame 2 [("employee_position_title",
                                 [Some "Sr. Manager"; Some "Firefighter"])])
                [Some "Manager"; None]
                [Some "Sr. Manager"; Some "Firefighter"]
                0 "Manager" eq_refl eq_refl eq_refl).
  simpl in H. assert (Hlt : 0 < 2) by lia.
  specialize (H Hlt eq_refl). discriminate H.
Qed.

(** C1, amended: for every row of a well-formed feature table with both
    title columns, the Preprocessor returns a table whose merged column
    keeps the primary value where the secondary one is missing, and holds
    the secondary value where the primary one is missing and the secondary
    one is present. *)
Theorem preprocessor_fills_missing X a b
  (Hwf : wf X = true)
  (Ha : getitem X primary = ok a)
  (Hb : getitem X secondary = ok b) :
  exists X' out,
    preprocessor X = ok X' /\
    getitem X' primary = ok out /\
    forall i, i < nrows X ->
      (forall v, at_row a i = Some v -> at_row b i = None ->
                 at_row out i = Some v) /\
      (forall v, at_row a i = None -> at_row b i = Some v ->
                 at_row out i = Some v).
Proof.
  destruct (preprocessor_merged X a b Ha Hb) as (X' & Hp & _ & Hout).
  exists X', (align (nrows X) (fillna b a)). repeat split; auto.
  - intros v Hav Hbn. rewrite (merged_row X a b i) by assumption.
    now rewrite Hbn.
  - intros v _ Hbv. rewrite (merged_row X a b i) by assumption.
    now rewrite Hbv.
Qed.

Lemma preprocessor_fills_missing_staff :
  wf Samples.staff_table = true /\
  exists X' out,
    preprocessor Samples.staff_table = ok X' /\
    getitem X' primary = ok out /\
    forall i, i < 4 ->
      (forall v,
          at_row [Some "Police Officer III"; None; Some "Manager II"; None] i
          = Some v ->
          at_row [None; Some "Firefighter/Rescuer I"; Some "Manager I"; None] i
          = None ->
          at_row out i = Some v) /\
      (forall v,
          at_row [Some "Police Officer III"; None; Some "Manager II"; None] i
          = None ->
          at_row [None; Some "Firefighter/Rescuer I"; Some "Manager I"; None] i
          = Some v ->
          at_row out i = Some v).
Proof.
  split; [reflexivity|].
  exact (preprocessor_fills_missing Samples.staff_table _ _
           eq_refl eq_refl eq_refl).
Defined.

(** C2: the overlay computes [secondary.fillna(primary)]: in every row of
    a well-formed feature table with both title columns, the merged column
    holds the secondary value whenever it is present, whatever the primary
    value, and the primary value only where the secondary one is missing. *)
Theorem overlay_prefers_secondary X a b
  (Hwf : wf X = true)
  (Ha : getitem X primary = ok a)
  (Hb : getitem X secondary = ok b) :
  exists X' out,
    preprocessor X = ok X' /\
    getitem X' primary = ok out /\
    forall i, i < nrows X ->
      (forall v, at_row b i = Some v -> at_row out i = Some v) /\
      (at_row b i = None -> at_row out i = at_row a i).
Proof.
  destruct (preprocessor_merged X a b Ha Hb) as (X' & Hp & _ & Hout).
  exists X', (align (nrows X) (fillna b a)). repeat split; auto.
  - intros v Hbv. rewrite (merged_row X a b i) by assumption.
    now rewrite Hbv.
  - intros Hbn. rewrite (merged_row X a b i) by assumption.
    now rewrite Hbn.
Qed.

Lemma overlay_prefers_secondary_staff :
  wf Samples.staff_table = true /\
  exists X' out,
    preprocessor Samples.staff_table = ok X' /\
    getitem X' primary = ok out /\
    forall i, i < 4 ->
      (forall v,
          at_row [None; Some "Firefighter/Rescuer I"; Some "Manager I"; None] i
          = Some v ->
          at_row out i = Some v) /\
      (at_row [None; Some "Firefighter/Rescuer I"; Some "Manager I"; None] i
       = None ->
       at_row out i =
       at_row [Some "Police Officer III"; None; Some "Manager II"; None] i).
Proof.
  split; [reflexivity|].
  exact (overlay_prefers_secondary Samples.staff_table _ _
           eq_refl eq_refl eq_refl).
Defined.

(** C8: when the Preprocessor returns, the secondary column name is no
    longer a column of the table, the table has as many rows as before,
    its columns are those it had except the secondary one, in the same
    order, and every column other than the two title columns is the
    column it was. *)
Theorem preprocessor_frame X X' (H : preprocessor X = ok X') :
  ~ In secondary (column_names X') /\
  nrows X' = nrows X /\
  column_names X' =
    filter (fun k => negb (String.eqb k secondary)) (column_names X) /\
  forall k, k <> primary -> k <> secondary -> getitem X' k = getitem X k.
Proof.
  destruct (preprocessor_inv X X' H) as (a & b & Ha & Hb & ->).
  assert (Hnames : column_names (merged_table X a b) =
            filter (fun k => negb (String.eqb k secondary)) (column_names X)).
  { unfold merged_table, column_names. cbn [columns].
    rewrite (names_filter (fun k => negb (existsb (String.eqb k) [secondary]))).
    rewrite names_replace. apply filter_ext. intros k. cbn [existsb].
    now rewrite orb_false_r. }
  split; [|split; [reflexivity|split; [exact Hnames|]]].
  - rewrite Hnames. intros Hin. apply filter_In in Hin as [_ Hin].
    now rewrite String.eqb_refl in Hin.
  - intros k Hp Hs. unfold getitem, merged_table. cbn [columns].
    rewrite (lookup_filter [secondary]). cbn [existsb].
    destruct (String.eqb_spec k secondary) as [->|_]; [contradiction|].
    cbn [orb]. now rewrite lookup_replace_other.
Qed.

Lemma preprocessor_frame_staff :
  exists X',
    preprocessor Samples.staff_table = ok X' /\
    ~ In secondary (column_names X') /\
    nrows X' = 4 /\
    column_names X' = ["department"; "employee_position_title"; "gender"] /\
    forall k, k <> primary -> k <> secondary ->
              getitem X' k = getitem Samples.staff_table k.
Proof.
  eexists. split; [reflexivity|].
  exact (preprocessor_frame Samples.staff_table _ eq_refl).
Defined.

(** ** The encoder *)

Section EncoderFacts.
Context {F : Factorization}.

Lemma length_to_numpy X : List.length (to_numpy X) = nrows X.
Proof. unfold to_numpy. now rewrite length_map, length_seq. Qed.

Lemma length_learn_topics (enc : GapEncoder F) X :
  List.length (learn_topics enc X) = n_components enc.
Proof. unfold learn_topics. now rewrite length_map, length_seq. Qed.

Lemma encode_shape (ts : list Topic) X :
  has_shape (encode ts X) (nrows X) (List.length ts).
Proof.
  unfold has_shape, encode. split.
  - now rewrite length_map, length_to_numpy.
  - apply Forall_forall. intros r Hr. apply in_map_iff in Hr as (obs & <- & _).
    apply length_map.
Qed.

Lemma transform_fit (enc : GapEncoder F) X S :
  transform (fit enc X) S = ok (encode (learn_topics enc X) S).
Proof. reflexivity. Qed.

Lemma firstn_seq_min n start len :
  firstn n (seq start len) = seq start (Nat.min n len).
Proof.
  revert start len. induction n as [|n IH]; intros start [|len]; simpl;
    try reflexivity.
  now rewrite IH.
Qed.

(** [X[:B]] keeps the first [B] observations. *)
Lemma to_numpy_head_rows X B :
  to_numpy (head_rows X B) = firstn B (to_numpy X).
Proof.
  unfold to_numpy, head_rows. cbn [nrows columns].
  rewrite firstn_map, firstn_seq_min. apply map_ext_in.
  intros i Hi. apply in_seq in Hi. unfold row. cbn [columns].
  rewrite map_map. apply map_ext. intros c. cbn [snd]. unfold at_row.
  rewrite nth_firstn. destruct (Nat.ltb_spec i B); [reflexivity|lia].
Qed.

(** The label summary of a fitted encoder: one group per learnt topic. *)
Lemma feature_names_fit (enc : GapEncoder F) X k :
  get_feature_names_out (fit enc X) k
  = ok (map (fun t => map (ranked_label t) (seq 0 k)) (learn_topics enc X)).
Proof. reflexivity. Qed.

Lemma length_feature_names (enc : GapEncoder F) X k :
  List.length (map (fun t => map (ranked_label t) (seq 0 k))
                   (learn_topics enc X))
  = n_components enc.
Proof. now rewrite length_map, length_learn_topics. Qed.

Lemma encode_head_rows (ts : list Topic) X B :
  encode ts (head_rows X B) = firstn B (encode ts X).
Proof. unfold encode. now rewrite to_numpy_head_rows, firstn_map. Qed.

End EncoderFacts.

(** C4: for a column of N rows, N at least 1, and an encoder configured
    with at least one component, [fit_transform] returns a matrix of
    exactly N rows and [n_components] columns; and [transform], by the
    encoder so fitted, of any sample returns a matrix with one row per row
    of the sample and [n_components] columns, in particular for the first
    B rows of a table. *)
Theorem fit_transform_shape {F : Factorization} (enc : GapEncoder F)
  (X : DataFrame)
  (HN : 1 <= nrows X) (Hn : 1 <= n_components enc) :
  has_shape (snd (fit_transform enc X)) (nrows X) (n_components enc) /\
  (forall S, exists m,
      transform (fst (fit_transform enc X)) S = ok m /\
      has_shape m (nrows S) (n_components enc)) /\
  (forall S B, exists m,
      transform (fst (fit_transform enc X)) (head_rows S B) = ok m /\
      has_shape m (Nat.min B (nrows S)) (n_components enc)).
Proof.
  unfold fit_transform. cbn [fst snd].
  pose proof (length_learn_topics enc X) as Hlen.
  split; [|split].
  - rewrite <- Hlen. apply encode_shape.
  - intros S. eexists. split; [apply transform_fit|].
    rewrite <- Hlen. apply encode_shape.
  - intros S B. eexists. split; [apply transform_fit|].
    rewrite <- Hlen. apply (encode_shape _ (head_rows S B)).
Qed.

Lemma fit_transform_shape_fifteen :
  has_shape
    (snd (fit_transform (F := Samples.counting) (new 10 42) Samples.fifteen_rows))
    15 10.
Proof.
  apply (fit_transform_shape (F := Samples.counting) (new 10 42)
           Samples.fifteen_rows); simpl; lia.
Defined.

(** C5: for every k at least 1, the label summary of a fitted encoder
    with k labels per topic is a sequence of exactly [n_components]
    label-groups, one per topic in topic order, each of exactly k
    strings. *)
Theorem label_summary_shape {F : Factorization} (enc : GapEncoder F)
  (X : DataFrame) (k : nat) (Hk : 1 <= k) :
  exists groups,
    get_feature_names_out (fit enc X) k = ok groups /\
    List.length groups = n_components enc /\
    Forall (fun g => List.length g = k) groups /\
    forall i, i < n_components enc ->
      nth_error groups i =
      option_map (fun t => map (ranked_label t) (seq 0 k))
                 (nth_error (learn_topics enc X) i).
Proof.
  eexists. split; [apply feature_names_fit|]. split; [|split].
  - apply length_feature_names.
  - apply Forall_forall. intros g Hg. apply in_map_iff in Hg as (t & <- & _).
    now rewrite length_map, length_seq.
  - intros i _. apply nth_error_map.
Qed.

Lemma label_summary_shape_three :
  exists groups,
    get_feature_names_out
      (fit (F := Samples.counting) (new 10 42) Samples.fifteen_rows) 3
    = ok groups /\
    List.length groups = 10 /\
    Forall (fun g => List.length g = 3) groups.
Proof.
  destruct (label_summary_shape (F := Samples.counting) (new 10 42)
              Samples.fifteen_rows 3) as (groups & H1 & H2 & H3 & _).
  - lia.
  - exists groups. auto.
Defined.

(** ** Runs of the script *)

Section ScriptFacts.
Context {F : Factorization}.
Variable env : Env F.

Lemma world_eta (w : World F) : mkWorld (stdout w) (trace w) = w.
Proof. now destruct w. Qed.

(** *** Failures are handed on *)

Lemma propagating_ret {A} (a : A) : propagating (ret a).
Proof. intros w Hw. exact Hw. Qed.

Lemma propagating_bind {A B} (m : M A) (k : A -> M B) :
  propagating m -> (forall a, propagating (k a)) -> propagating (bind m k).
Proof.
  intros Hm Hk w Hw. unfold bind. specialize (Hm w Hw).
  destruct (m w) as [[e|a] w']; cbn [fst snd] in *.
  - exact Hm.
  - apply Hk. exact Hm.
Qed.

Lemma unhandled_record {A} (r : result A) c o tr :
  Forall returned tr -> o = outcome r -> unhandled r (tr ++ [(c, o)]).
Proof.
  intros Htr ->. destruct r as [e|a]; cbn [unhandled outcome].
  - now exists tr, c.
  - apply Forall_app. split; [exact Htr|]. now repeat constructor.
Qed.

Lemma propagating_step {A} c (r : result A) : propagating (step c r).
Proof. intros w Hw. now apply unhandled_record. Qed.

Lemma propagating_print line : propagating (print line).
Proof.
  intros w Hw. apply (unhandled_record (ok tt)); [exact Hw|reflexivity].
Qed.

Lemma propagating_plot p : propagating (plot env p).
Proof.
  intros w Hw. unfold plot. cbn [fst snd record trace].
  apply unhandled_record; [exact Hw|]. now destruct (plt env (trace w) p).
Qed.

Lemma propagating_for_each {A} (xs : list A) (body : A -> M unit) :
  (forall x, propagating (body x)) -> propagating (for_each xs body).
Proof.
  intros Hb. induction xs as [|x xs IH]; cbn [for_each].
  - apply propagating_ret.
  - apply propagating_bind; [apply Hb|intros _; exact IH].
Qed.

Ltac propagate :=
  repeat first
    [ apply propagating_step
    | apply propagating_plot
    | apply propagating_print
    | apply propagating_ret
    | apply propagating_for_each; intros ?
    | apply propagating_bind; [|intros ?; cbv zeta] ].

Lemma propagating_main : propagating (main env).
Proof.
  unfold main, topic_reporter, activation_visualizer, render. propagate.
Qed.

Lemma propagating_topic_reporter (enc : GapEncoder F) k :
  propagating (topic_reporter env enc k).
Proof. unfold topic_reporter. propagate. Qed.

Lemma propagating_activation_visualizer (enc : GapEncoder F) X_dirty tl B T :
  propagating (activation_visualizer env enc X_dirty tl B T).
Proof. unfold activation_visualizer, render. propagate. Qed.

(** A failure anywhere in an unhandled run is the result of the run. *)
Lemma unhandled_failure {A} (r : result A) tr c e :
  unhandled r tr -> In (c, Some e) tr -> r = raise e.
Proof.
  destruct r as [e'|a]; cbn [unhandled].
  - intros (pre & c' & -> & Hpre) Hin. apply in_app_or in Hin as [Hin|Hin].
    + rewrite Forall_forall in Hpre. specialize (Hpre _ Hin). discriminate.
    + destruct Hin as [Heq|[]]. now injection Heq as _ ->.
  - intros Hall Hin. rewrite Forall_forall in Hall.
    specialize (Hall _ Hin). discriminate.
Qed.

End ScriptFacts.

(** C10: in a run of the script, whatever its collaborators do, a call
    that raises is the last call made, and the exception it raised is the
    outcome of the script, unchanged; the script ends normally only when
    every call returned.  So no failure is caught, retried or replaced by
    a fallback.  This holds of the failures of every collaborator: of the
    dataset provider, of the table operations, of the rendering surface,
    of an encoder that refuses the column it is fitted on, which ends the
    script at line 67, and of an encoder used before it is fitted, which
    ends the Topic Reporter and the Activation Visualizer at their first
    call, nothing printed and nothing drawn. *)
Theorem failures_propagate {F : Factorization} (env : Env F) :
  unhandled (fst (main env empty_world)) (trace (snd (main env empty_world))) /\
  (forall c e,
    In (c, Some e) (trace (snd (main env empty_world))) ->
    fst (main env empty_world) = raise e /\
    exists pre, trace (snd (main env empty_world)) = pre ++ [(c, Some e)] /\
                Forall returned pre) /\
  (forall ds X X_dirty e,
    fetch_employee_salaries env = ok ds ->
    preprocessor (ds_X ds) = ok X ->
    getitems X [primary] = ok X_dirty ->
    fit_error env X_dirty = Some e ->
    main env empty_world
    = (raise e,
       mkWorld [] [(Fetch, None); (Preprocess, None); (Project, None);
                   (FitTransform, Some e)])) /\
  (forall enc k, propagating (topic_reporter env enc k)) /\
  (forall enc X_dirty tl B T,
    propagating (activation_visualizer env enc X_dirty tl B T)) /\
  (forall n seed k w,
    topic_reporter env (new n seed) k w
    = (raise NotFittedError,
       record (FeatureNames k) (Some NotFittedError) w)) /\
  (forall n seed X_dirty tl B T w,
    activation_visualizer env (new n seed) X_dirty tl B T w
    = (raise NotFittedError,
       record (Transform (head_rows X_dirty B)) (Some NotFittedError) w)).
Proof.
  assert (H : unhandled (fst (main env empty_world))
                        (trace (snd (main env empty_world)))).
  { apply propagating_main. constructor. }
  split; [exact H|]. split; [|split; [|split; [|split; [|split]]]].
  - intros c e Hin.
    pose proof (unhandled_failure _ _ c e H Hin) as Hr. split; [exact Hr|].
    rewrite Hr in H. cbn [unhandled raise] in H.
    destruct H as (pre & c' & Htr & Hpre). exists pre. split; [|exact Hpre].
    rewrite Htr in Hin |- *. apply in_app_or in Hin as [Hin|[Heq|[]]].
    + rewrite Forall_forall in Hpre. specialize (Hpre _ Hin). discriminate.
    + now rewrite Heq.
  - intros ds X X_dirty e Hf Hp Hs He. unfold main, bind, step, fit_call.
    rewrite Hf. cbv beta iota zeta delta [ok]. rewrite Hp.
    cbv beta iota zeta delta [ok]. rewrite Hs.
    cbv beta iota zeta delta [ok]. rewrite He. reflexivity.
  - intros enc k. apply propagating_topic_reporter.
  - intros enc X_dirty tl B T. apply propagating_activation_visualizer.
  - reflexivity.
  - reflexivity.
Qed.

(** An encoder that refuses the four rows of the staff table ends the
    script at line 67: nothing is printed, nothing is drawn. *)
Example main_refused_column :
  main (Samples.picky Samples.staff_table) empty_world
  = (raise (ExternalError "ValueError"),
     mkWorld [] [(Fetch, None); (Preprocess, None); (Project, None);
                 (FitTransform, Some (ExternalError "ValueError"))]).
Proof. vm_compute. reflexivity. Qed.

(** Without the dataset, the script stops at its first call. *)
Example main_offline :
  main Samples.offline empty_world
  = (raise (ExternalError "URLError"),
     mkWorld [] [(Fetch, Some (ExternalError "URLError"))]).
Proof. reflexivity. Qed.

(** A table without the secondary column stops the script in the
    Preprocessor. *)
Example main_missing_column :
  main (Samples.quiet Samples.fifteen_rows) empty_world
  = (raise (KeyError "underfilled_job_title"),
     mkWorld [] [(Fetch, None);
                 (Preprocess, Some (KeyError "underfilled_job_title"))]).
Proof. reflexivity. Qed.

(** ** The Topic Reporter *)

Section ReporterFacts.
Context {F : Factorization}.
Variable env : Env F.

Lemma for_each_print {A} (line : A -> string) (xs : list A) (w : World F) :
  for_each xs (fun x => print (line x)) w
  = (ok tt, mkWorld (stdout w ++ map line xs)
                    (trace w ++ map (fun x => (Print (line x), None)) xs)).
Proof.
  revert w. induction xs as [|x xs IH]; intros w; cbn [for_each map].
  - unfold ret. now rewrite !app_nil_r, world_eta.
  - unfold bind, print at 1. rewrite IH. cbn [stdout trace].
    now rewrite <- !app_assoc.
Qed.

Lemma combine_seq_nth {A} (d : A) (xs : list A) (start : nat) :
  combine (seq start (List.length xs)) xs
  = map (fun i => (i, nth (i - start) xs d)) (seq start (List.length xs)).
Proof.
  revert start. induction xs as [|x xs IH]; intros start;
    cbn [List.length seq combine map].
  - reflexivity.
  - rewrite Nat.sub_diag. cbn [nth]. f_equal. rewrite IH.
    apply map_ext_in. intros i Hi. apply in_seq in Hi.
    replace (i - start) with (S (i - S start)) by lia. reflexivity.
Qed.

(** [enumerate] pairs every element with its index, from 0. *)
Lemma enumerate_nth {A} (d : A) (xs : list A) :
  enumerate xs = map (fun i => (i, nth i xs d)) (seq 0 (List.length xs)).
Proof.
  unfold enumerate. rewrite (combine_seq_nth d). apply map_ext.
  intros i. now rewrite Nat.sub_0_r.
Qed.

(** The run of the Topic Reporter on an encoder that has topics. *)
Lemma topic_reporter_run (enc : GapEncoder F) k groups (w : World F) :
  get_feature_names_out enc k = ok groups ->
  topic_reporter env enc k w
  = (ok groups,
     mkWorld
       (stdout w ++
        map (fun i => topic_line env i (nth i groups []))
            (seq 0 (List.length groups)))
       (trace w ++
        (FeatureNames k, None) ::
        map (fun i => (Print (topic_line env i (nth i groups [])), None))
            (seq 0 (List.length groups)))).
Proof.
  intros Hg. unfold topic_reporter, bind. rewrite Hg.
  cbn [step ok outcome record]. rewrite for_each_print.
  cbn [stdout trace ret]. unfold ret, ok.
  rewrite (enumerate_nth (A := LabelGroup) [] groups), !map_map.
  cbn [fst snd record stdout trace].
  now rewrite <- app_assoc.
Qed.

End ReporterFacts.

(** C6: on a fitted encoder, the Topic Reporter prints exactly one line
    per latent topic, for the topic indices 0, 1, ... in this order; line
    [i] is [Topic n°i: ] followed by the text of the label-group that the
    label summary of this same encoder gives for topic [i]. *)
Theorem topic_reporter_lines {F : Factorization} (env : Env F)
  (enc : GapEncoder F) (X : DataFrame) (k : nat) (w : World F) :
  exists groups,
    get_feature_names_out (fit enc X) k = ok groups /\
    fst (topic_reporter env (fit enc X) k w) = ok groups /\
    stdout (snd (topic_reporter env (fit enc X) k w))
    = stdout w ++
      map (fun i => ("Topic n°" ++ str_int i ++ ": "
                     ++ str_labels env (nth i groups []))%string)
          (seq 0 (n_components enc)).
Proof.
  eexists. split; [reflexivity|].
  rewrite (topic_reporter_run env (fit enc X) k _ w eq_refl).
  cbn [fst snd stdout]. split; [reflexivity|].
  now rewrite length_map, length_learn_topics.
Qed.

(** The lines printed for an encoder of two topics. *)
Example topic_reporter_two_topics :
  stdout (snd (topic_reporter (Samples.quiet Samples.scenario_table)
                 (fit (new 2 42) Samples.scenario_table) 3 empty_world))
  = ["Topic n°0: 0/0, 0/1, 0/2"; "Topic n°1: 1/0, 1/1, 1/2"].
Proof. reflexivity. Qed.

(** ** The Activation Visualizer *)

Section VisualizerFacts.
Context {F : Factorization}.
Variable env : Env F.

Section Emits.
Variable P : call F -> Prop.

Lemma extends_by_refl (w : World F) : extends_by P w w.
Proof.
  split; [reflexivity|]. exists []. now rewrite app_nil_r.
Qed.

Lemma extends_by_trans (w1 w2 w3 : World F) :
  extends_by P w1 w2 -> extends_by P w2 w3 -> extends_by P w1 w3.
Proof.
  intros (Ho1 & evs1 & Ht1 & H1) (Ho2 & evs2 & Ht2 & H2). split.
  - congruence.
  - exists (evs1 ++ evs2). rewrite Ht2, Ht1, app_assoc.
    split; [reflexivity|]. apply Forall_app. now split.
Qed.

Lemma emits_ret {A} (a : A) : emits P (ret a).
Proof. intros w. apply extends_by_refl. Qed.

Lemma emits_bind {A B} (m : M A) (k : A -> M B) :
  emits P m -> (forall a, emits P (k a)) -> emits P (bind m k).
Proof.
  intros Hm Hk w. unfold bind. specialize (Hm w).
  destruct (m w) as [[e|a] w']; cbn [snd] in *; [exact Hm|].
  apply extends_by_trans with w'; [exact Hm|apply Hk].
Qed.

Lemma emits_plot p : P (Plot p) -> emits P (plot env p).
Proof.
  intros Hp w. split; [reflexivity|].
  exists [(Plot p, plt env (trace w) p)]. split; [reflexivity|].
  now repeat constructor.
Qed.

End Emits.

Lemma emits_render m X_dirty tl B T :
  emits (render_call X_dirty tl B T) (render env m X_dirty tl B T).
Proof.
  unfold render.
  repeat first
    [ apply emits_plot; cbn [render_call]; auto
    | apply emits_bind; [|intros _] ].
Qed.

(** With a rendering surface that accepts every call, [render] makes
    all its calls. *)
Lemma render_quiet m X_dirty tl B T (w : World F) :
  (forall tr p, plt env tr p = None) ->
  render env m X_dirty tl B T w
  = (ok tt,
     mkWorld (stdout w)
             (trace w ++ map (fun p => (Plot p, None))
                             (visualizer_plots m X_dirty tl B T))).
Proof.
  intros Hq. unfold render, bind, plot. rewrite !Hq.
  unfold record. cbn [stdout trace visualizer_plots map].
  now rewrite <- !app_assoc.
Qed.

(** The cells of a one-column table, row by row, are its column. *)
Lemma map_nth_seq (col : Series) :
  map (fun i => nth i col None) (seq 0 (List.length col)) = col.
Proof.
  induction col as [|c col IH]; cbn [List.length seq map nth]; [reflexivity|].
  f_equal. rewrite <- seq_shift, map_map. exact IH.
Qed.

Lemma flatten_one_column X k col :
  wf X = true -> columns X = [(k, col)] -> flatten (to_numpy X) = col.
Proof.
  intros Hwf Hcol.
  assert (Hlen : List.length col = nrows X).
  { apply (wf_column_length X k col Hwf). rewrite Hcol. cbn [lookup].
    now rewrite String.eqb_refl. }
  unfold flatten, to_numpy, row. rewrite Hcol, <- Hlen. cbn [map snd].
  transitivity (map (fun i => nth i col None) (seq 0 (List.length col)));
    [|apply map_nth_seq].
  unfold at_row.
  induction (seq 0 (List.length col)) as [|i l IH]; cbn [map List.concat];
    [reflexivity|].
  now rewrite IH.
Qed.

Lemma flatten_sample X k col B :
  wf X = true -> columns X = [(k, col)] ->
  flatten (to_numpy (head_rows X B)) = firstn B col /\
  List.length (firstn B col) = Nat.min B (nrows X).
Proof.
  intros Hwf Hcol.
  assert (Hlen : List.length col = nrows X).
  { apply (wf_column_length X k col Hwf). rewrite Hcol. cbn [lookup].
    now rewrite String.eqb_refl. }
  split; [|now rewrite length_firstn, Hlen].
  apply (flatten_one_column _ k).
  - unfold wf, head_rows, column_names. rewrite Hcol.
    cbn [columns nrows map fst snd distinct existsb forallb negb andb].
    now rewrite length_firstn, Hlen, Nat.eqb_refl.
  - unfold head_rows. now rewrite Hcol.
Qed.

Lemma emits_render_args m X_dirty tl B T :
  emits (render_args m X_dirty tl B T) (render env m X_dirty tl B T).
Proof.
  unfold render.
  repeat first
    [ apply emits_plot; cbn [render_args]; auto
    | apply emits_bind; [|intros _] ].
Qed.

(** The observations of a one-column table are its cells. *)
Lemma to_numpy_one_column X k col :
  wf X = true -> columns X = [(k, col)] ->
  to_numpy X = map (fun c => [c]) col.
Proof.
  intros Hwf Hcol.
  assert (Hlen : List.length col = nrows X).
  { apply (wf_column_length X k col Hwf). rewrite Hcol. cbn [lookup].
    now rewrite String.eqb_refl. }
  unfold to_numpy, row. rewrite Hcol, <- Hlen. cbn [map snd]. unfold at_row.
  rewrite <- (map_nth_seq col) at 2. now rewrite map_map.
Qed.

Lemma render_args_plot m X_dirty tl B T (c : call F) :
  render_args m X_dirty tl B T c -> exists p, c = Plot p.
Proof. destruct c; try contradiction. intros _. now exists p. Qed.

End VisualizerFacts.

(** C3, as stated, fails for a dirty column of 15 rows and the bound 20 of
    the script: the sample has 15 rows and the vertical axis is given 20
    ticks. *)
Lemma twenty_ticks_for_fifteen_rows :
  nrows (head_rows Samples.fifteen_rows 20) = 15 /\
  ~ one_tick_per_sampled_row Samples.fifteen_rows 20
      (snd (activation_visualizer (Samples.quiet Samples.fifteen_rows)
              (fit (new 10 42) Samples.fifteen_rows) Samples.fifteen_rows
              [] 20 10 empty_world)).
Proof.
  split; [reflexivity|]. intros H.
  specialize (H (seq 0 20) Samples.fifteen_titles None).
  assert (Hin : In (Plot (yticks (seq 0 20) Samples.fifteen_titles), None)
                   (trace (snd (activation_visualizer
                      (Samples.quiet Samples.fifteen_rows)
                      (fit (new 10 42) Samples.fifteen_rows)
                      Samples.fifteen_rows [] 20 10 empty_world)))).
  { apply (nth_error_In _ 6). vm_compute. reflexivity. }
  specialize (H Hin). discriminate H.
Qed.

(** C3, amended: for a bound B and a well-formed dirty column of N rows,
    the Activation Visualizer calls the fitted encoder once, on the first
    min(B, N) rows of the column and on nothing else, a bound above N
    being clipped to N; the matrix it gets, of min(B, N) rows, is the one
    it shows; the vertical axis is given the B ticks 0..B-1, whatever N
    is, and the raw values of the min(B, N) sampled rows as labels. *)
Theorem visualizer_bounded_sample {F : Factorization} (env : Env F)
  (enc : GapEncoder F) (X0 X_dirty : DataFrame) (k : string) (col : Series)
  (tl : list LabelGroup) (B T : nat) (w : World F)
  (Hwf : wf X_dirty = true) (Hcol : columns X_dirty = [(k, col)]) :
  nrows (head_rows X_dirty B) = Nat.min B (nrows X_dirty) /\
  columns (head_rows X_dirty B) = [(k, firstn B col)] /\
  transform (fit enc X0) (head_rows X_dirty B)
  = ok (firstn B (encode (learn_topics enc X0) X_dirty)) /\
  has_shape (firstn B (encode (learn_topics enc X0) X_dirty))
            (Nat.min B (nrows X_dirty)) (n_components enc) /\
  exists evs,
    trace (snd (activation_visualizer env (fit enc X0) X_dirty tl B T w))
    = trace w ++ (Transform (head_rows X_dirty B), None) :: evs /\
    Forall (fun ev => exists p, fst ev = Plot p) evs /\
    (forall image o,
        In (Plot (imshow image), o) evs ->
        image = firstn B (encode (learn_topics enc X0) X_dirty)) /\
    (forall ticks labels o,
        In (Plot (yticks ticks labels), o) evs ->
        ticks = seq 0 B /\ List.length ticks = B /\
        labels = firstn B col /\
        List.length labels = Nat.min B (nrows X_dirty)) /\
    ((forall tr p, plt env tr p = None) ->
     fst (activation_visualizer env (fit enc X0) X_dirty tl B T w) = ok tt /\
     In (Plot (imshow (firstn B (encode (learn_topics enc X0) X_dirty))), None)
        evs /\
     In (Plot (yticks (seq 0 B) (firstn B col)), None) evs).
Proof.
  destruct (flatten_sample X_dirty k col B Hwf Hcol) as [Hflat Hlen].
  split; [reflexivity|].
  split; [unfold head_rows; now rewrite Hcol|].
  split; [rewrite transform_fit; now rewrite encode_head_rows|].
  split.
  { rewrite <- encode_head_rows, <- (length_learn_topics enc X0).
    apply (encode_shape _ (head_rows X_dirty B)). }
  unfold activation_visualizer, bind. rewrite transform_fit.
  cbn [step ok outcome].
  set (m := encode (learn_topics enc X0) (head_rows X_dirty B)).
  assert (Hm : m = firstn B (encode (learn_topics enc X0) X_dirty))
    by apply encode_head_rows.
  set (w1 := record (Transform (head_rows X_dirty B)) None w).
  destruct (emits_render_args env m X_dirty tl B T w1)
    as (_ & evs & Htr & Hall).
  exists evs. split; [|split; [|split; [|split]]].
  - rewrite Htr. unfold w1. cbn [record trace]. now rewrite <- app_assoc.
  - apply (Forall_impl _ (fun ev => render_args_plot m X_dirty tl B T (fst ev))).
    exact Hall.
  - intros image o Hin. rewrite Forall_forall in Hall.
    specialize (Hall _ Hin). cbn [fst render_args] in Hall. congruence.
  - intros ticks labels o Hin. rewrite Forall_forall in Hall.
    specialize (Hall _ Hin). cbn [fst render_args] in Hall.
    destruct Hall as [Ht Hl]. rewrite Hflat in Hl. subst ticks labels.
    rewrite length_seq. auto.
  - intros Hq. rewrite (render_quiet env m X_dirty tl B T w1 Hq) in Htr |- *.
    cbn [fst snd trace] in *. split; [reflexivity|].
    apply app_inv_head in Htr. rewrite <- Htr, <- Hm.
    cbn [visualizer_plots map]. rewrite Hflat. split.
    + right. now left.
    + do 5 right. now left.
Qed.

Lemma visualizer_bounded_sample_fifteen :
  wf Samples.fifteen_rows = true /\
  transform (fit Samples.fresh Samples.fifteen_rows)
            (head_rows Samples.fifteen_rows 20)
  = ok (firstn 20 (encode (learn_topics Samples.fresh Samples.fifteen_rows)
                          Samples.fifteen_rows)) /\
  has_shape (firstn 20 (encode (learn_topics Samples.fresh Samples.fifteen_rows)
                               Samples.fifteen_rows))
            15 10 /\
  exists evs,
    trace (snd (activation_visualizer (Samples.quiet Samples.fifteen_rows)
                  (fit Samples.fresh Samples.fifteen_rows)
                  Samples.fifteen_rows [] 20 10 empty_world))
    = (Transform (head_rows Samples.fifteen_rows 20), None) :: evs /\
    In (Plot (imshow (firstn 20 (encode (learn_topics Samples.fresh
                                           Samples.fifteen_rows)
                                        Samples.fifteen_rows))), None) evs /\
    In (Plot (yticks (seq 0 20) Samples.fifteen_titles), None) evs.
Proof.
  split; [reflexivity|].
  destruct (visualizer_bounded_sample (Samples.quiet Samples.fifteen_rows)
              Samples.fresh Samples.fifteen_rows Samples.fifteen_rows
              "employee_position_title" Samples.fifteen_titles
              [] 20 10 empty_world eq_refl eq_refl)
    as (_ & _ & H1 & H2 & evs & H3 & _ & _ & _ & H4).
  split; [exact H1|]. split; [exact H2|].
  exists evs. split; [exact H3|]. apply H4. reflexivity.
Defined.

(** ** The whole script *)

Section MainFacts.
Context {F : Factorization}.
Variable env : Env F.

Lemma bind_step_ok {A B} c (a : A) (k : A -> M B) (w : World F) :
  bind (step c (ok a)) k w = k a (record c None w).
Proof. reflexivity. Qed.

Lemma bind_run {A B} (m : M A) (k : A -> M B) (w w' : World F) a :
  m w = (ok a, w') -> bind m k w = k a w'.
Proof. intros H. unfold bind. now rewrite H. Qed.

Lemma main_run ds X X_dirty groups :
  fetch_employee_salaries env = ok ds ->
  preprocessor (ds_X ds) = ok X ->
  getitems X [primary] = ok X_dirty ->
  fit_error env X_dirty = None ->
  get_feature_names_out (fit (new 10 42) X_dirty) 3 = ok groups ->
  main env empty_world
  = activation_visualizer env (fit (new 10 42) X_dirty) X_dirty groups 20 10
                          (reported env groups).
Proof.
  intros Hf Hp Hs He Hg. unfold main.
  rewrite Hf, bind_step_ok. cbv zeta.
  rewrite Hp, bind_step_ok, Hs, bind_step_ok.
  unfold fit_call. rewrite He, bind_step_ok.
  unfold fit_transform. cbn [fst].
  erewrite bind_run by (apply topic_reporter_run; exact Hg).
  reflexivity.
Qed.

Lemma no_plot_before_render groups p o :
  ~ In (Plot p, o) (trace (reported env groups)).
Proof.
  unfold reported. cbn [trace]. intros Hin.
  apply in_app_or in Hin as [Hin|Hin].
  - cbn [In] in Hin. intuition discriminate.
  - apply in_map_iff in Hin as (i & Heq & _). discriminate.
Qed.

End MainFacts.

(** C7: in any run of the script, the labels put on the horizontal axis
    are the label-groups that the one fitted encoder of the script gives,
    the ticks are the topic indices 0 .. n_components - 1 of that encoder,
    there are as many labels as ticks, and the lines of the Topic Reporter
    are indexed by these same ticks, in the same order, each with the
    label of its tick. *)
Theorem reporter_and_axis_agree {F : Factorization} (env : Env F)
  (ticks : list nat) (labels : list LabelGroup) (rotation : nat) (ha : string)
  (o : option exn)
  (Hx : In (Plot (xticks ticks labels rotation ha), o)
           (trace (snd (main env empty_world)))) :
  exists X_dirty,
    get_feature_names_out (fst (fit_transform (new 10 42) X_dirty)) 3
    = ok labels /\
    ticks = seq 0 (n_components (fst (fit_transform (new 10 42) X_dirty))) /\
    List.length labels = List.length ticks /\
    stdout (snd (main env empty_world))
    = map (fun i => topic_line env i (nth i labels [])) ticks.
Proof.
  pose proof Hx as Hx0. unfold main in Hx.
  destruct (fetch_employee_salaries env) as [e|ds] eqn:Hf.
  { cbn in Hx. intuition discriminate. }
  rewrite bind_step_ok in Hx. cbv zeta in Hx.
  destruct (preprocessor (ds_X ds)) as [e|X] eqn:Hp.
  { cbn in Hx. intuition discriminate. }
  rewrite bind_step_ok in Hx.
  destruct (getitems X [primary]) as [e|X_dirty] eqn:Hs.
  { cbn in Hx. intuition discriminate. }
  rewrite bind_step_ok in Hx. unfold fit_call in Hx.
  destruct (fit_error env X_dirty) as [e|] eqn:He.
  { cbn in Hx. intuition discriminate. }
  clear Hx.
  pose proof (feature_names_fit (new 10 42) X_dirty 3) as Hg.
  pose proof (length_feature_names (new 10 42) X_dirty 3) as Hlen.
  set (groups := map _ (learn_topics _ _)) in Hg, Hlen.
  pose proof (main_run env ds X X_dirty groups Hf Hp Hs He Hg) as Hrun.
  revert Hx0. rewrite Hrun. unfold activation_visualizer.
  rewrite transform_fit, bind_step_ok.
  set (m := encode _ _).
  set (w1 := record (Transform _) None (reported env groups)).
  destruct (emits_render env m X_dirty groups 20 10 w1) as (Hout & evs & Htr & Hall).
  rewrite Htr, Hout. intros Hx.
  assert (Hin : In (Plot (xticks ticks labels rotation ha), o) evs).
  { apply in_app_or in Hx as [Hx|Hx]; [|exact Hx].
    unfold w1 in Hx. cbn [record trace] in Hx.
    apply in_app_or in Hx as [Hx|[Hx|[]]]; [|discriminate Hx].
    now apply no_plot_before_render in Hx. }
  rewrite Forall_forall in Hall. specialize (Hall _ Hin).
  cbn [fst render_call] in Hall. destruct Hall as [Ht Hl]. subst ticks labels.
  exists X_dirty. unfold fit_transform. cbn [fst fit n_components new].
  split; [exact Hg|]. split; [reflexivity|].
  split; [now rewrite length_seq|].
  unfold w1. cbn [record stdout reported].
  replace (List.length groups) with 10 by (symmetry; exact Hlen).
  reflexivity.
Qed.

Lemma reporter_and_axis_agree_fifteen :
  In (Plot (xticks (seq 0 10) Samples.counting_labels 50 "right"), None)
     (trace (snd (main (Samples.quiet Samples.fifteen_table) empty_world))) /\
  stdout (snd (main (Samples.quiet Samples.fifteen_table) empty_world))
  = map (fun i => topic_line (Samples.quiet Samples.fifteen_table) i
                             (nth i Samples.counting_labels []))
        (seq 0 10).
Proof.
  assert (Hin : In (Plot (xticks (seq 0 10) Samples.counting_labels 50 "right"),
                    None)
                   (trace (snd (main (Samples.quiet Samples.fifteen_table)
                                     empty_world)))).
  { apply (nth_error_In _ 19). vm_compute. reflexivity. }
  split; [exact Hin|].
  destruct (reporter_and_axis_agree (Samples.quiet Samples.fifteen_table)
              (seq 0 10) Samples.counting_labels 50 "right" None Hin)
    as (X_dirty & _ & _ & _ & Hout).
  exact Hout.
Defined.

(** The script on the fifteen-row table, with a rendering surface that
    accepts everything: it ends normally, having printed ten lines and
    asked for twenty ticks on the vertical axis. *)
Example main_fifteen_quiet :
  fst (main (Samples.quiet Samples.fifteen_table) empty_world) = ok tt /\
  List.length (stdout (snd (main (Samples.quiet Samples.fifteen_table)
                                 empty_world))) = 10 /\
  In (Plot (yticks (seq 0 20) Samples.fifteen_titles), None)
     (trace (snd (main (Samples.quiet Samples.fifteen_table) empty_world))).
Proof.
  split; [vm_compute; reflexivity|]. split; [vm_compute; reflexivity|].
  apply (nth_error_In _ 21). vm_compute. reflexivity.
Qed.

(** The same run with a rendering surface that refuses twenty ticks for
    fifteen labels: the refusal ends the script. *)
Example main_fifteen_strict :
  fst (main (Samples.strict Samples.fifteen_table) empty_world)
  = raise (ExternalError "ValueError") /\
  last (trace (snd (main (Samples.strict Samples.fifteen_table) empty_world)))
       (Fetch, None)
  = (Plot (yticks (seq 0 20) Samples.fifteen_titles),
     Some (ExternalError "ValueError")).
Proof. split; vm_compute; reflexivity. Qed.

(** * Further properties of the script *)

(** ** The Preprocessor: errors, invariant, composition *)

Section PreprocessorMore.

Lemma lookup_none_has k cols :
  lookup k cols = None -> existsb (String.eqb k) (map fst cols) = false.
Proof.
  induction cols as [|[k' s'] cols IH]; simpl; [reflexivity|].
  destruct (String.eqb k k'); [discriminate|]. exact IH.
Qed.

Lemma getitem_raise X k e :
  getitem X k = raise e -> e = KeyError k /\ has_column X k = false.
Proof.
  unfold getitem, has_column, column_names.
  destruct (lookup k (columns X)) eqn:Hl; [discriminate|].
  intros H. injection H as <-. split; [reflexivity|].
  now apply lookup_none_has.
Qed.

Lemma length_align n s : List.length (align n s) = n.
Proof.
  unfold align. rewrite length_app, length_firstn, repeat_length. lia.
Qed.

Lemma align_id n s : List.length s = n -> align n s = s.
Proof.
  intros <-. unfold align. rewrite firstn_all, Nat.sub_diag. apply app_nil_r.
Qed.

Lemma existsb_filter (f p : string -> bool) l :
  existsb f (filter p l) = true -> existsb f l = true.
Proof.
  induction l as [|x l IH]; simpl; [auto|].
  destruct (p x); simpl; intros H.
  - apply orb_true_iff in H as [H|H]; [now rewrite H|].
    rewrite (IH H). apply orb_true_r.
  - rewrite (IH H). apply orb_true_r.
Qed.

Lemma distinct_filter (p : string -> bool) l :
  distinct l = true -> distinct (filter p l) = true.
Proof.
  induction l as [|x l IH]; simpl; [auto|].
  intros H. apply andb_true_iff in H as [Hx Hl].
  destruct (p x); simpl; [|auto].
  rewrite (IH Hl), andb_true_r.
  destruct (existsb (String.eqb x) (filter p l)) eqn:E; [|reflexivity].
  apply existsb_filter in E. now rewrite E in Hx.
Qed.

Lemma in_replace k s cols c :
  In c (replace k s cols) -> snd c = s \/ In c cols.
Proof.
  induction cols as [|[k' s'] cols IH]; simpl; [auto|].
  destruct (String.eqb k k'); simpl.
  - intros [<-|H]; [now left|right; now right].
  - intros [<-|H]; [right; now left|].
    destruct (IH H); [now left|right; now right].
Qed.

Lemma replace_same k s cols :
  lookup k cols = Some s -> replace k s cols = cols.
Proof.
  induction cols as [|[k' s'] cols IH]; simpl; [reflexivity|].
  destruct (String.eqb k k') eqn:E.
  - intros H. now injection H as ->.
  - intros H. now rewrite IH.
Qed.

Lemma fillna_all_missing b a :
  Forall (fun c => c = None) b -> List.length a = List.length b ->
  fillna b a = a.
Proof.
  intros Hb. revert a. induction Hb as [|c b Hc _ IH]; intros [|x a] Hlen;
    simpl in Hlen; try discriminate; simpl; [reflexivity|].
  subst c. now rewrite IH by lia.
Qed.

Lemma wf_merged_table X a b : wf X = true -> wf (merged_table X a b) = true.
Proof.
  unfold wf. intros H. apply andb_true_iff in H as [Hd Hl].
  apply andb_true_iff. unfold merged_table, column_names. cbn [columns nrows].
  split.
  - rewrite (names_filter (fun k => negb (existsb (String.eqb k) [secondary]))).
    rewrite names_replace. now apply distinct_filter.
  - rewrite forallb_forall in Hl. apply forallb_forall. intros c Hc.
    apply filter_In in Hc as [Hc _].
    apply in_replace in Hc as [Heq|Hc]; [|now apply Hl].
    destruct c as [k s]. cbn [snd] in Heq |- *. subst s.
    rewrite length_align. apply Nat.eqb_refl.
Qed.

Lemma getitems_merged_table X a b :
  getitem X primary = ok a ->
  getitems (merged_table X a b) [primary] = ok (dirty_column X a b).
Proof.
  intros Ha. unfold getitems, select.
  rewrite (merged_table_primary X a b Ha). reflexivity.
Qed.

Lemma wf_dirty_column X a b : wf (dirty_column X a b) = true.
Proof.
  unfold wf, dirty_column, column_names.
  cbn [columns nrows map fst snd distinct existsb forallb negb andb].
  now rewrite length_align, Nat.eqb_refl.
Qed.

End PreprocessorMore.

(** Lines 40-43, error behaviour: on a well-formed table, the
    Preprocessor raises exactly when a title column is missing.  Without
    the secondary column it raises [KeyError] on the secondary name,
    whether or not the primary one is there; with the secondary column and
    without the primary one it raises [KeyError] on the primary name; it
    raises nothing else. *)
Theorem preprocessor_missing_column (X : DataFrame) (Hwf : wf X = true) :
  (has_column X secondary = false ->
   preprocessor X = raise (KeyError secondary)) /\
  (has_column X secondary = true -> has_column X primary = false ->
   preprocessor X = raise (KeyError primary)) /\
  (forall e, preprocessor X = raise e ->
     (e = KeyError secondary /\ has_column X secondary = false) \/
     (e = KeyError primary /\ has_column X secondary = true /\
      has_column X primary = false)).
Proof.
  assert (Hhas : forall k, has_column X k = true ->
                           exists s, getitem X k = ok s).
  { intros k Hk. destruct (getitem X k) as [e|s] eqn:Hg; [|now exists s].
    apply getitem_raise in Hg as [_ Hg]. congruence. }
  assert (Hno : forall k, has_column X k = false ->
                          getitem X k = raise (KeyError k)).
  { intros k Hk. destruct (getitem X k) as [e|s] eqn:Hg.
    - apply getitem_raise in Hg as [-> _]. reflexivity.
    - apply getitem_ok, lookup_some_has in Hg.
      unfold has_column, column_names in Hk. congruence. }
  split; [|split].
  - intros Hs. unfold preprocessor, overlay. now rewrite (Hno _ Hs).
  - intros Hs Hp. destruct (Hhas _ Hs) as [b Hb].
    unfold preprocessor, overlay. now rewrite Hb, (Hno _ Hp).
  - intros e He.
    destruct (has_column X secondary) eqn:Hs.
    + destruct (Hhas _ Hs) as [b Hb].
      destruct (has_column X primary) eqn:Hp.
      * destruct (Hhas _ Hp) as [a Ha].
        rewrite (preprocessor_ok X a b Ha Hb) in He. discriminate He.
      * right. unfold preprocessor, overlay in He.
        rewrite Hb, (Hno _ Hp) in He. now injection He as <-.
    + left. unfold preprocessor, overlay in He. rewrite (Hno _ Hs) in He.
      now injection He as <-.
Qed.

Lemma preprocessor_missing_column_fifteen :
  wf Samples.fifteen_rows = true /\
  has_column Samples.fifteen_rows primary = true /\
  preprocessor Samples.fifteen_rows = raise (KeyError "underfilled_job_title").
Proof.
  split; [reflexivity|]. split; [reflexivity|].
  destruct (preprocessor_missing_column Samples.fifteen_rows eq_refl)
    as (H & _).
  apply H. reflexivity.
Defined.

(** Lines 40-43, invariant: the Preprocessor returns a well-formed table
    (distinct column names, one cell per row in every column) whenever it
    is given one. *)
Theorem preprocessor_keeps_wf (X X' : DataFrame)
  (Hwf : wf X = true) (H : preprocessor X = ok X') :
  wf X' = true.
Proof.
  destruct (preprocessor_inv X X' H) as (a & b & _ & _ & ->).
  now apply wf_merged_table.
Qed.

Lemma preprocessor_keeps_wf_staff :
  exists X', preprocessor Samples.staff_table = ok X' /\ wf X' = true.
Proof.
  eexists. split; [reflexivity|].
  exact (preprocessor_keeps_wf Samples.staff_table _ eq_refl eq_refl).
Defined.

(** Lines 40-43 run twice: on the table it has returned, the Preprocessor
    raises [KeyError] on the secondary name, the column it dropped. *)
Theorem preprocessor_not_twice (X X' : DataFrame)
  (H : preprocessor X = ok X') :
  preprocessor X' = raise (KeyError secondary).
Proof.
  destruct (preprocessor_inv X X' H) as (a & b & _ & _ & ->).
  assert (Hg : getitem (merged_table X a b) secondary
               = raise (KeyError secondary)).
  { unfold getitem, merged_table. cbn [columns].
    rewrite (lookup_filter [secondary]). cbn [existsb].
    now rewrite String.eqb_refl. }
  unfold preprocessor, overlay. now rewrite Hg.
Qed.

Lemma preprocessor_not_twice_staff :
  exists X',
    preprocessor Samples.staff_table = ok X' /\
    preprocessor X' = raise (KeyError "underfilled_job_title").
Proof.
  eexists. split; [reflexivity|].
  exact (preprocessor_not_twice Samples.staff_table _ eq_refl).
Defined.

(** Lines 40-42: in a well-formed table with both title columns, a cell of
    the merged column is missing exactly in the rows where both titles are
    missing. *)
Theorem merged_missing_iff_both_missing (X : DataFrame) (a b : Series)
  (Hwf : wf X = true)
  (Ha : getitem X primary = ok a)
  (Hb : getitem X secondary = ok b) :
  exists X' out,
    preprocessor X = ok X' /\
    getitem X' primary = ok out /\
    forall i, i < nrows X ->
      (at_row out i = None <-> at_row a i = None /\ at_row b i = None).
Proof.
  destruct (preprocessor_merged X a b Ha Hb) as (X' & Hp & _ & Hout).
  exists X', (align (nrows X) (fillna b a)).
  split; [exact Hp|]. split; [exact Hout|].
  intros i Hi. rewrite (merged_row X a b i Hwf Ha Hb Hi).
  destruct (at_row b i) as [v|].
  - split; [discriminate|]. intros [_ Hbi]. discriminate Hbi.
  - split; [intros Hai; now split|]. now intros [Hai _].
Qed.

Lemma merged_missing_iff_both_missing_staff :
  wf Samples.staff_table = true /\
  exists X' out,
    preprocessor Samples.staff_table = ok X' /\
    getitem X' primary = ok out /\
    forall i, i < 4 ->
      (at_row out i = None <->
       at_row [Some "Police Officer III"; None; Some "Manager II"; None] i
       = None /\
       at_row [None; Some "Firefighter/Rescuer I"; Some "Manager I"; None] i
       = None).
Proof.
  split; [reflexivity|].
  exact (merged_missing_iff_both_missing Samples.staff_table _ _
           eq_refl eq_refl eq_refl).
Defined.

(** Lines 40-50: on a well-formed table with both title columns, the
    projection of line 50 does not raise after the Preprocessor; the dirty
    column it gives is a well-formed table of one column, named as the
    primary column and holding the merged titles, with the rows of the
    feature table. *)
Theorem dirty_column_after_preprocessing (X : DataFrame) (a b : Series)
  (Hwf : wf X = true)
  (Ha : getitem X primary = ok a)
  (Hb : getitem X secondary = ok b) :
  exists X',
    preprocessor X = ok X' /\
    getitems X' [primary] = ok (dirty_column X a b) /\
    column_names (dirty_column X a b) = [primary] /\
    getitem (dirty_column X a b) primary = getitem X' primary /\
    nrows (dirty_column X a b) = nrows X /\
    wf (dirty_column X a b) = true.
Proof.
  exists (merged_table X a b).
  split; [now apply preprocessor_ok|].
  split; [now apply getitems_merged_table|].
  split; [reflexivity|].
  split; [now rewrite (merged_table_primary X a b Ha)|].
  split; [reflexivity|apply wf_dirty_column].
Qed.

Lemma dirty_column_after_preprocessing_staff :
  wf Samples.staff_table = true /\
  exists X',
    preprocessor Samples.staff_table = ok X' /\
    getitems X' [primary]
    = ok (mkDataFrame 4
            [("employee_position_title",
              [Some "Police Officer III"; Some "Firefighter/Rescuer I";
               Some "Manager I"; None])]).
Proof.
  split; [reflexivity|].
  destruct (dirty_column_after_preprocessing Samples.staff_table _ _
              eq_refl eq_refl eq_refl) as (X' & H1 & H2 & _).
  exists X'. split; [exact H1|exact H2].
Defined.

(** Lines 40-43 with nothing to overlay: when every cell of the secondary
    column of a well-formed table is missing, the Preprocessor returns the
    table it was given without that column, every other column, the
    primary one included, being what it was. *)
Theorem preprocessor_only_drops (X : DataFrame) (a b : Series)
  (Hwf : wf X = true)
  (Ha : getitem X primary = ok a)
  (Hb : getitem X secondary = ok b)
  (Hnone : Forall (fun c => c = None) b) :
  preprocessor X = ok (without_secondary X).
Proof.
  rewrite (preprocessor_ok X a b Ha Hb). f_equal.
  unfold merged_table, without_secondary. f_equal.
  pose proof Ha as Ha'. pose proof Hb as Hb'.
  apply getitem_ok in Ha', Hb'.
  pose proof (wf_column_length X primary a Hwf Ha') as Hla.
  pose proof (wf_column_length X secondary b Hwf Hb') as Hlb.
  rewrite (fillna_all_missing b a Hnone)
    by (transitivity (nrows X); [exact Hla|symmetry; exact Hlb]).
  rewrite (align_id _ a Hla), (replace_same primary a _ Ha').
  apply filter_ext. intros c. cbn [existsb]. now rewrite orb_false_r.
Qed.

Lemma preprocessor_only_drops_fifteen :
  preprocessor Samples.fifteen_table = ok Samples.fifteen_rows.
Proof.
  apply (preprocessor_only_drops Samples.fifteen_table
           Samples.fifteen_titles (repeat None 15)); try reflexivity.
  apply Forall_forall. intros c Hc. now apply repeat_spec in Hc.
Defined.

(** ** Runs of the script: what can fail, what is printed, what is shown *)

Section RunFacts.
Context {F : Factorization}.
Variable env : Env F.






End RunFacts.







(** Lines 95-101, rows and labels: for a well-formed dirty column, the
    image handed to [imshow] has one row per label handed to [yticks], row
    [i] being the activations of the topics on the raw value that is
    label [i]; and when the column has at least B rows, the ticks, the
    labels and the rows of the image are B each. *)
Theorem image_rows_match_labels {F : Factorization} (env : Env F)
  (enc : GapEncoder F) (X0 X_dirty : DataFrame) (k : string) (col : Series)
  (tl : list LabelGroup) (B T : nat) (w : World F)
  (Hwf : wf X_dirty = true) (Hcol : columns X_dirty = [(k, col)]) :
  exists evs,
    trace (snd (activation_visualizer env (fit enc X0) X_dirty tl B T w))
    = trace w ++ (Transform (head_rows X_dirty B), None) :: evs /\
    forall image ticks labels o1 o2,
      In (Plot (imshow image), o1) evs ->
      In (Plot (yticks ticks labels), o2) evs ->
      image = map (fun c => map (fun t => activation t [c])
                                (learn_topics enc X0)) labels /\
      List.length image = List.length labels /\
      (B <= nrows X_dirty ->
       List.length ticks = B /\ List.length labels = B /\
       List.length image = B).
Proof.
  destruct (flatten_sample X_dirty k col B Hwf Hcol) as [Hflat Hlen].
  unfold activation_visualizer, bind. rewrite transform_fit.
  cbn [step ok outcome].
  set (m := encode (learn_topics enc X0) (head_rows X_dirty B)).
  set (w1 := record (Transform (head_rows X_dirty B)) None w).
  destruct (emits_render_args env m X_dirty tl B T w1) as (_ & evs & Htr & Hall).
  exists evs. split.
  { rewrite Htr. unfold w1. cbn [record trace]. now rewrite <- app_assoc. }
  intros image ticks labels o1 o2 Hi Hy. rewrite Forall_forall in Hall.
  pose proof (Hall _ Hi) as Him. pose proof (Hall _ Hy) as Hyt.
  cbn [fst render_args] in Him, Hyt. destruct Hyt as [Ht Hl].
  rewrite Hflat in Hl. subst image ticks labels.
  assert (Hm : m = map (fun c => map (fun t => activation t [c])
                                     (learn_topics enc X0)) (firstn B col)).
  { unfold m. rewrite encode_head_rows. unfold encode.
    rewrite (to_numpy_one_column X_dirty k col Hwf Hcol), map_map.
    now rewrite firstn_map. }
  split; [exact Hm|]. split; [now rewrite Hm, length_map|].
  intros HB. rewrite Hm, length_map, length_seq, Hlen.
  repeat split; lia.
Qed.

Lemma image_rows_match_labels_fifteen :
  wf Samples.fifteen_rows = true /\
  exists evs,
    trace (snd (activation_visualizer (Samples.quiet Samples.fifteen_rows)
                  (fit Samples.fresh Samples.fifteen_rows)
                  Samples.fifteen_rows [] 10 10 empty_world))
    = (Transform (head_rows Samples.fifteen_rows 10), None) :: evs /\
    forall image ticks labels o1 o2,
      In (Plot (imshow image), o1) evs ->
      In (Plot (yticks ticks labels), o2) evs ->
      List.length ticks = 10 /\ List.length labels = 10 /\
      List.length image = 10.
Proof.
  split; [reflexivity|].
  destruct (image_rows_match_labels (Samples.quiet Samples.fifteen_rows)
              Samples.fresh Samples.fifteen_rows Samples.fifteen_rows
              "employee_position_title" Samples.fifteen_titles
              [] 10 10 empty_world eq_refl eq_refl)
    as (evs & Htr & H).
  exists evs. split; [exact Htr|].
  intros image ticks labels o1 o2 Hi Hy.
  destruct (H image ticks labels o1 o2 Hi Hy) as (_ & _ & HB).
  apply HB. cbn. lia.
Defined.
